(** * saferith: the signed integer layer ([int.go])

    An [Int] is a sign bit (a [Choice]) together with a magnitude (a [Nat]);
    it denotes [(-1)^sign * abs].  Every method of [int.go] is embedded below
    as a function from the receiver and the arguments to the receiver after
    the call.  The magnitude engine ([Nat], [Modulus]) is not part of
    [int.go]; it is modelled from its documented contract. *)

From Stdlib Require Import ZArith NArith Lia List Bool.
From Stdlib Require Import Strings.Byte.
From Stdlib Require Strings.Ascii Strings.String.
Import ListNotations.

Local Open Scope Z_scope.

(** ** Choice: a machine word holding 0 or 1 *)

(** [type Choice Word].  The source combines choices with the bitwise
    operators [|], [&] and [^] only; they are kept as such. *)
Definition Choice := Z.
Bind Scope Z_scope with Choice.

Definition is_choice (c : Choice) : Prop := c = 0 \/ c = 1.

Definition choice_of_bool (b : bool) : Choice := Z.b2z b.

(** ** The magnitude engine *)

Module Nat.

(** Modelled from the spec: the type [Nat] is declared outside [int.go].
    The spec gives it an absolute value and an announced bit-length that
    may exceed the bits the value needs. *)
Record t : Type := mk { value : N; announced : Z }.

(** The zero value of the Go struct, as produced by [new(Nat)]. *)
Definition zero : t := mk 0%N 0.

(** Modelled from the spec: [Modulus] is declared outside [int.go]; an
    opaque positive modulus.  Only its numeric value is observed. *)
Record Modulus : Type := mkModulus { modulus : N }.

Definition valid (m : Modulus) : Prop := (0 < modulus m)%N.

(** Bit length of the modulus, the announced size given to reduced values.
    The spec leaves the announced size of a reduced value open; nothing
    below depends on it. *)
Definition BitLen (m : Modulus) : Z := Z.of_N (N.size (modulus m)).

(** Big-endian interpretation of a byte string. *)
Fixpoint be_value (acc : N) (data : list byte) : N :=
  match data with
  | [] => acc
  | b :: rest => be_value (acc * 256 + Byte.to_N b)%N rest
  end.

(** Modelled from the spec: [Nat.SetBytes] is missing from the sources;
    it reads [data] as a big-endian unsigned magnitude. *)
Definition SetBytes (z : t) (data : list byte) : t :=
  mk (be_value 0%N data) (8 * Z.of_nat (length data)).

(** Modelled from the spec: [Nat.SetUint64] is missing from the sources;
    the magnitude is set from a native unsigned 64-bit value. *)
Definition SetUint64 (z : t) (x : N) : t :=
  mk (x mod 2 ^ 64)%N 64.

(** Modelled from the spec: [Nat.SetNat] is missing from the sources; a
    deep copy of [x], announced size included. *)
Definition SetNat (z : t) (x : t) : t := x.

(** Keep the low [bits] bits of [v]. *)
Definition truncate (v : N) (bits : Z) : N :=
  (v mod 2 ^ Z.to_N bits)%N.

(** Modelled from the spec: [Nat.Resize] is missing from the sources; it
    sets the announced bit-length, truncating higher bits. *)
Definition Resize (z : t) (cap : Z) : t :=
  mk (truncate (value z) cap) cap.

(** Modelled from the spec: [Nat.EqZero] is missing from the sources. *)
Definition EqZero (z : t) : Choice :=
  choice_of_bool (value z =? 0)%N.

(** Modelled from the spec: [Nat.Eq] is missing from the sources; equality
    of the represented values, whatever the announced sizes. *)
Definition Eq (z x : t) : Choice :=
  choice_of_bool (value z =? value x)%N.

(** Modelled from the spec: [Nat.Cmp] is missing from the sources; it
    returns the three choices (greater, equal, less) of [z] against [x]. *)
Definition Cmp (z x : t) : Choice * Choice * Choice :=
  (choice_of_bool (value x <? value z)%N,
   choice_of_bool (value z =? value x)%N,
   choice_of_bool (value z <? value x)%N).

(** Modelled from the spec: [Nat.CmpMod] is missing from the sources; the
    same comparison against a modulus, the last choice telling whether the
    magnitude lies in [[0, m)]. *)
Definition CmpMod (z : t) (m : Modulus) : Choice * Choice * Choice :=
  (choice_of_bool (modulus m <? value z)%N,
   choice_of_bool (value z =? modulus m)%N,
   choice_of_bool (value z <? modulus m)%N).

(** Modelled from the spec: [Nat.Mul] is missing from the sources; the
    product truncated to [cap] bits, [cap < 0] standing for the sum of the
    announced sizes of the operands. *)
Definition Mul (z : t) (x y : t) (cap : Z) : t :=
  let cap := if cap <? 0 then announced x + announced y else cap in
  mk (truncate (value x * value y) cap) cap.

(** Modelled from the spec: [Nat.Mod] is missing from the sources; the
    reduced magnitude in [[0, m)]. *)
Definition Mod (z : t) (x : t) (m : Modulus) : t :=
  mk (value x mod modulus m)%N (BitLen m).

(** Modelled from the spec: [Nat.ModNeg] is missing from the sources; the
    additive inverse of [x] modulo [m], that is [(m - r) mod m] for the
    residue [r] of [x], so that [ModNeg(0, m) = 0]. *)
Definition ModNeg (z : t) (x : t) (m : Modulus) : t :=
  mk ((modulus m - value x mod modulus m) mod modulus m)%N (BitLen m).

(** Modelled from the spec: [Nat.CondAssign] is missing from the sources;
    the receiver is overwritten with [x] iff the mask is true. *)
Definition CondAssign (z : t) (yes : Choice) (x : t) : t :=
  if yes =? 1 then x else z.

End Nat.

(** ** Int *)

Module Int.

(** [type Int struct { sign Choice; abs Nat }] *)
Record t : Type := mk { sign : Choice; abs : Nat.t }.

(** The zero value of the struct. *)
Definition zero : t := mk 0 Nat.zero.

(** "This number is represented by (-1)^sign * abs". *)
Definition to_Z (z : t) : Z :=
  (-1) ^ sign z * Z.of_N (Nat.value (abs z)).

Definition set_sign (z : t) (s : Choice) : t := mk s (abs z).
Definition set_abs (z : t) (a : Nat.t) : t := mk (sign z) a.

(** [func (z *Int) SetBytes(data []byte) *Int] *)
Definition SetBytes (z : t) (data : list byte) : t :=
  let z := set_sign z 0 in
  let z := set_abs z (Nat.SetBytes (abs z) data) in
  z.

(** [func (z *Int) SetUint64(x uint64) *Int] *)
Definition SetUint64 (z : t) (x : N) : t :=
  let z := set_sign z 0 in
  let z := set_abs z (Nat.SetUint64 (abs z) x) in
  z.

(** [func (z *Int) Resize(cap int) *Int] *)
Definition Resize (z : t) (cap : Z) : t :=
  set_abs z (Nat.Resize (abs z) cap).

(** [func (z *Int) Eq(x *Int) Choice] *)
Definition Eq (z x : t) : Choice :=
  let zero := Nat.EqZero (abs z) in
  let sameSign := Z.lor zero (Z.lxor (Z.lxor 1 (sign z)) (sign x)) in
  Z.land sameSign (Nat.Eq (abs z) (abs x)).

(** [func (z *Int) Abs() *Nat] *)
Definition Abs (z : t) : Nat.t :=
  Nat.SetNat Nat.zero (abs z).

(** [func (z *Int) Neg(x *Int) *Int].  [x] is read before the receiver is
    written, so the embedding also covers a receiver aliasing [x]. *)
Definition Neg (z x : t) : t :=
  let z := set_sign z (Z.lxor 1 (sign x)) in
  let z := set_abs z (Nat.SetNat (abs z) (abs x)) in
  z.

(** [func (z *Int) Mul(x *Int, y *Int, cap int) *Int] *)
Definition Mul (z x y : t) (cap : Z) : t :=
  let z := set_sign z (Z.lxor (sign x) (sign y)) in
  let z := set_abs z (Nat.Mul (abs z) (abs x) (abs y) cap) in
  z.

(** [func (z *Int) Mod(m *Modulus) *Nat] *)
Definition Mod (z : t) (m : Nat.Modulus) : Nat.t :=
  let out := Nat.Mod Nat.zero (abs z) m in
  let negated := Nat.ModNeg Nat.zero out m in
  let out := Nat.CondAssign out (sign z) negated in
  out.

(** [func (z *Int) SetModSymmetric(x *Nat, m *Modulus) *Int] *)
Definition SetModSymmetric (z : t) (x : Nat.t) (m : Nat.Modulus) : t :=
  let z := set_abs z (Nat.Mod (abs z) x m) in
  let negated := Nat.ModNeg Nat.zero (abs z) m in
  let '(gt, _, _) := Nat.Cmp negated (abs z) in
  let negatedLeq := Z.lxor 1 gt in
  let z := set_abs z (Nat.CondAssign (abs z) negatedLeq negated) in
  let z := set_sign z negatedLeq in
  z.

(** [func (z *Int) CheckInRange(m *Modulus) Choice] *)
Definition CheckInRange (z : t) (m : Nat.Modulus) : Choice :=
  let '(_, _, absOk) := Nat.CmpMod (abs z) m in
  let negated := Nat.ModNeg Nat.zero (abs z) m in
  let '(_, _, lt) := Nat.Cmp negated (abs z) in
  let signOk := Z.lxor 1 lt in
  Z.land absOk signOk.

(** Modelled from the spec: [ctIfElse] is missing from the sources; the
    branchless select, [x] when the choice is true and [y] otherwise. *)
Definition ctIfElse (v : Choice) (x y : Z) : Z :=
  if v =? 1 then x else y.

(** [string(rune(w))] for a code point below 128, the only ones [String]
    passes: the one-character string. *)
Definition rune_string (w : Z) : String.string :=
  String.String (Ascii.ascii_of_N (Z.to_N w)) String.EmptyString.

(** [func (z *Int) String() string].  [Word('-')] is 45 and [Word('+')] is
    43.  The hexadecimal form of the magnitude, [Nat.String], is missing
    from the sources and is taken as the parameter [natString]. *)
Definition String (natString : Nat.t -> String.string) (z : t)
  : String.string :=
  let sign := ctIfElse (sign z) 45 43 in
  String.append (rune_string sign) (natString (abs z)).

End Int.

(** ** Concrete runs *)

Definition nat_of (v : N) : Nat.t := Nat.mk v 64.
Definition int_of (s : Choice) (v : N) : Int.t := Int.mk s (nat_of v).
Definition mod_of (m : N) : Nat.Modulus := Nat.mkModulus m.

Example Mod_neg3_7 : Nat.value (Int.Mod (int_of 1 3) (mod_of 7)) = 4%N.
Proof. reflexivity. Qed.

Example SetModSymmetric_4_7 :
  let r := Int.SetModSymmetric Int.zero (nat_of 4) (mod_of 7) in
  Int.sign r = 1 /\ Nat.value (Int.abs r) = 3%N /\ Int.to_Z r = -3.
Proof. repeat split. Qed.

Example SetModSymmetric_4_8 :
  let r := Int.SetModSymmetric Int.zero (nat_of 4) (mod_of 8) in
  Int.sign r = 1 /\ Nat.value (Int.abs r) = 4%N.
Proof. repeat split. Qed.

Example CheckInRange_4_8 :
  Int.CheckInRange (int_of 0 4) (mod_of 8) = 1 /\
  Int.CheckInRange (int_of 1 4) (mod_of 8) = 1.
Proof. repeat split. Qed.

(** ** Auxiliary facts *)

Ltac Zify.zify_post_hook ::= Z.to_euclidean_division_equations.

Lemma ModNeg_value (z x : Nat.t) (m : Nat.Modulus) :
  Nat.valid m ->
  Nat.value (Nat.ModNeg z x m) =
  (if (Nat.value x mod Nat.modulus m =? 0)%N then 0
   else Nat.modulus m - Nat.value x mod Nat.modulus m)%N.
Proof.
  unfold Nat.valid; intros Hm; cbn.
  pose proof (N.mod_upper_bound (Nat.value x) (Nat.modulus m)) as Hr.
  destruct (N.eqb_spec (Nat.value x mod Nat.modulus m) 0) as [E | E].
  - rewrite E, N.sub_0_r. apply N.Div0.mod_same.
  - apply N.mod_small. lia.
Qed.

(** ** Mod *)

(** C1: for an Int with a sign in {0,1} and a valid modulus [m], [Mod]
    returns a Nat in [[0, m-1]] congruent to [(-1)^sign * abs] modulo [m];
    for sign 1, magnitude 3 and [m = 7] the result is 4. *)
Theorem Mod_residue :
  (forall (z : Int.t) (m : Nat.Modulus),
      is_choice (Int.sign z) -> Nat.valid m ->
      (Nat.value (Int.Mod z m) < Nat.modulus m)%N /\
      Z.of_N (Nat.value (Int.Mod z m)) mod Z.of_N (Nat.modulus m) =
      Int.to_Z z mod Z.of_N (Nat.modulus m)) /\
  (forall a : Z,
      Nat.value (Int.Mod (Int.mk 1 (Nat.mk 3 a)) (Nat.mkModulus 7)) = 4%N).
Proof.
  split; [| reflexivity].
  intros [s [v a]] [m] [Hs | Hs] Hm; unfold Nat.valid in Hm; cbn in Hs, Hm;
    subst s; unfold Int.Mod, Int.to_Z, Nat.CondAssign; cbn [Int.sign Int.abs Z.eqb Pos.eqb].
  - cbn [Nat.Mod Nat.value Nat.modulus]. change ((-1) ^ 0) with 1. split.
    + apply N.mod_upper_bound; lia.
    + rewrite Z.mul_1_l, N2Z.inj_mod. apply Z.mod_mod. lia.
  - rewrite ModNeg_value by exact Hm.
    cbn [Nat.Mod Nat.value Nat.modulus].
    rewrite N.Div0.mod_mod.
    pose proof (N.mod_upper_bound v m ltac:(lia)) as Hr.
    change ((-1) ^ 1) with (-1).
    destruct (N.eqb_spec (v mod m) 0) as [E | E].
    + split; [lia |].
      change (Z.of_N 0) with 0. rewrite Z.mod_0_l by lia.
      symmetry. apply Z.mod_divide; [lia |].
      replace (-1 * Z.of_N v) with (- Z.of_N v) by ring.
      apply Z.divide_opp_r.
      apply Z.mod_divide; [lia |].
      rewrite <- N2Z.inj_mod, E. reflexivity.
    + split; [lia |].
      rewrite N2Z.inj_sub by lia. rewrite N2Z.inj_mod.
      set (M := Z.of_N m). set (V := Z.of_N v).
      assert (HM : 0 < M) by (subst M; lia).
      rewrite (Z.div_mod V M) at 2 by lia.
      replace (-1 * (M * (V / M) + V mod M)) with
        ((M - V mod M) + (- (V / M) - 1) * M) by ring.
      rewrite Z.mod_add by lia. reflexivity.
Qed.

(** An instance: [-3 mod 7]. *)
Lemma Mod_residue_witness :
  is_choice 1 /\ Nat.valid (mod_of 7) /\
  (Nat.value (Int.Mod (int_of 1 3) (mod_of 7)) < 7)%N /\
  Z.of_N (Nat.value (Int.Mod (int_of 1 3) (mod_of 7))) mod 7 = (-3) mod 7.
Proof.
  assert (Hs : is_choice 1) by (right; reflexivity).
  assert (Hm : Nat.valid (mod_of 7)) by reflexivity.
  split; [exact Hs |]. split; [exact Hm |].
  exact (proj1 Mod_residue (int_of 1 3) (mod_of 7) Hs Hm).
Defined.

(** ** SetModSymmetric *)

(** The two branches of [SetModSymmetric], in terms of the residue [r] of
    [x]: the positive one when [0 < r] and [2 r < m], the negative one
    otherwise. *)
Lemma SetModSymmetric_cases (z : Int.t) (x : Nat.t) (m : Nat.Modulus) :
  Nat.valid m ->
  let r := (Nat.value x mod Nat.modulus m)%N in
  let out := Int.SetModSymmetric z x m in
  (r <> 0%N /\ (2 * r < Nat.modulus m)%N /\
   Int.sign out = 0 /\ Nat.value (Int.abs out) = r) \/
  (r <> 0%N /\ (Nat.modulus m <= 2 * r)%N /\
   Int.sign out = 1 /\ Nat.value (Int.abs out) = (Nat.modulus m - r)%N) \/
  (r = 0%N /\ Int.sign out = 1 /\ Nat.value (Int.abs out) = 0%N).
Proof.
  intros Hm r out. subst out.
  unfold Int.SetModSymmetric, Nat.Cmp, Int.set_abs, Int.set_sign.
  cbn [Int.abs Int.sign].
  set (red := Nat.Mod (Int.abs z) x m).
  set (neg := Nat.ModNeg Nat.zero red m).
  assert (Hred : Nat.value red = r) by reflexivity.
  assert (Hneg : Nat.value neg =
                 if (r =? 0)%N then 0%N else (Nat.modulus m - r)%N).
  { subst neg. rewrite ModNeg_value by exact Hm.
    rewrite Hred. unfold r. rewrite N.Div0.mod_mod. reflexivity. }
  pose proof (N.mod_upper_bound (Nat.value x) (Nat.modulus m)) as Hr.
  fold r in Hr. unfold Nat.valid in Hm.
  rewrite Hred, Hneg. unfold choice_of_bool, Nat.CondAssign.
  destruct (N.eqb_spec r 0) as [E | E].
  - right; right.
    destruct (N.ltb_spec r 0) as [L | L]; [lia |].
    cbn [Z.b2z Z.lxor Z.eqb Pos.eqb Int.sign Int.abs].
    rewrite Hneg. destruct (N.eqb_spec r 0); [auto | contradiction].
  - destruct (N.ltb_spec r (Nat.modulus m - r)) as [L | L];
      cbn [Z.b2z Z.lxor Pos.lxor Z.of_N Z.eqb Pos.eqb Int.sign Int.abs].
    + left. rewrite Hred. repeat split; [exact E | lia].
    + right; left. rewrite Hneg.
      destruct (N.eqb_spec r 0); [contradiction |].
      repeat split; [exact E | lia].
Qed.

(** ** CheckInRange *)

(** [CheckInRange] accepts exactly the magnitudes [v] with [2 v <= m]. *)
Lemma CheckInRange_value (z : Int.t) (m : Nat.Modulus) :
  Nat.valid m ->
  Int.CheckInRange z m =
  choice_of_bool (2 * Nat.value (Int.abs z) <=? Nat.modulus m)%N.
Proof.
  intros Hm. unfold Int.CheckInRange, Nat.CmpMod, Nat.Cmp.
  set (v := Nat.value (Int.abs z)).
  set (neg := Nat.ModNeg Nat.zero (Int.abs z) m).
  assert (Hneg : Nat.value neg =
                 if (v mod Nat.modulus m =? 0)%N then 0%N
                 else (Nat.modulus m - v mod Nat.modulus m)%N)
    by (subst neg; apply ModNeg_value; exact Hm).
  unfold Nat.valid in Hm. rewrite Hneg. unfold choice_of_bool.
  destruct (N.ltb_spec v (Nat.modulus m)) as [A | A].
  - rewrite (N.mod_small v (Nat.modulus m)) by exact A.
    clear Hneg.
    destruct (N.eqb_spec v 0) as [E | E].
    + destruct (N.ltb_spec 0 v) as [C | C];
        destruct (N.leb_spec (2 * v) (Nat.modulus m)) as [B | B];
        try reflexivity; lia.
    + destruct (N.ltb_spec (Nat.modulus m - v) v) as [C | C];
        destruct (N.leb_spec (2 * v) (Nat.modulus m)) as [B | B];
        try reflexivity; lia.
  - destruct (N.leb_spec (2 * v) (Nat.modulus m)) as [B | B]; [lia |].
    apply Z.land_0_l.
Qed.

(** C4: for a valid modulus, the Int produced by [SetModSymmetric] passes
    [CheckInRange]; for [m = 7] and [x = 4] it is [-3] (sign 1, magnitude 3)
    and [CheckInRange] answers true. *)
Theorem CheckInRange_SetModSymmetric :
  (forall (z : Int.t) (x : Nat.t) (m : Nat.Modulus),
      Nat.valid m ->
      Int.CheckInRange (Int.SetModSymmetric z x m) m = 1) /\
  (forall (z : Int.t) (a : Z),
      let out := Int.SetModSymmetric z (Nat.mk 4 a) (Nat.mkModulus 7) in
      Int.sign out = 1 /\ Nat.value (Int.abs out) = 3%N /\
      Int.to_Z out = -3 /\
      Int.CheckInRange out (Nat.mkModulus 7) = 1).
Proof.
  split.
  - intros z x m Hm. rewrite CheckInRange_value by exact Hm.
    pose proof (N.mod_upper_bound (Nat.value x) (Nat.modulus m)) as Hr.
    unfold Nat.valid in Hm.
    destruct (SetModSymmetric_cases z x m Hm)
      as [(_ & H & _ & ->) | [(_ & H & _ & ->) | (_ & _ & ->)]];
      unfold choice_of_bool;
      match goal with
      | |- context [ (?a <=? ?b)%N ] => destruct (N.leb_spec a b)
      end; try reflexivity; lia.
  - intros z a. repeat split.
Qed.

(** An instance: [x = 4], [m = 7]. *)
Lemma CheckInRange_SetModSymmetric_witness :
  Nat.valid (mod_of 7) /\
  Int.CheckInRange (Int.SetModSymmetric Int.zero (nat_of 4) (mod_of 7))
    (mod_of 7) = 1.
Proof.
  assert (Hm : Nat.valid (mod_of 7)) by reflexivity.
  split; [exact Hm |].
  exact (proj1 CheckInRange_SetModSymmetric Int.zero (nat_of 4) (mod_of 7) Hm).
Defined.

(** ** The value of an Int, by sign *)

Lemma to_Z_positive (z : Int.t) :
  Int.sign z = 0 -> Int.to_Z z = Z.of_N (Nat.value (Int.abs z)).
Proof. unfold Int.to_Z; intros ->. change ((-1) ^ 0) with 1. ring. Qed.

Lemma to_Z_negative (z : Int.t) :
  Int.sign z = 1 -> Int.to_Z z = - Z.of_N (Nat.value (Int.abs z)).
Proof. unfold Int.to_Z; intros ->. change ((-1) ^ 1) with (-1). ring. Qed.

(** C2: for a valid modulus [m], [SetModSymmetric] yields an Int congruent
    to [x] modulo [m], lying between [-(m-1)/2] and [(m-1)/2] with one more
    negative value when [m] is even, whose magnitude is the smaller of the
    residue and its additive inverse, and which takes the negative
    representative at the midpoint of an even modulus: sign 1 and magnitude
    4 for [m = 8] and residue 4. *)
Theorem SetModSymmetric_centered :
  (forall (z : Int.t) (x : Nat.t) (m : Nat.Modulus),
      Nat.valid m ->
      let M := Z.of_N (Nat.modulus m) in
      let r := (Nat.value x mod Nat.modulus m)%N in
      let out := Int.SetModSymmetric z x m in
      is_choice (Int.sign out) /\
      Int.to_Z out mod M = Z.of_N (Nat.value x) mod M /\
      - ((M - 1) / 2) - (if Z.even M then 1 else 0) <= Int.to_Z out
        <= (M - 1) / 2 /\
      Nat.value (Int.abs out) =
        N.min r ((Nat.modulus m - r) mod Nat.modulus m)%N /\
      (N.even (Nat.modulus m) = true -> r = (Nat.modulus m / 2)%N ->
       Int.sign out = 1 /\ Nat.value (Int.abs out) = (Nat.modulus m / 2)%N /\
       Int.to_Z out = - ((M - 1) / 2) - 1)) /\
  (forall (z : Int.t) (a : Z),
      let out := Int.SetModSymmetric z (Nat.mk 4 a) (Nat.mkModulus 8) in
      Int.sign out = 1 /\ Nat.value (Int.abs out) = 4%N).
Proof.
  split; [| intros z a; split; reflexivity].
  intros z x m Hm M r out.
  pose proof (N.mod_upper_bound (Nat.value x) (Nat.modulus m)) as Hr.
  pose proof (SetModSymmetric_cases z x m Hm) as Hc.
  fold r in Hr, Hc. fold out in Hc. unfold Nat.valid in Hm.
  assert (HM : 0 < M) by (subst M; lia).
  assert (HR : Z.of_N r = Z.of_N (Nat.value x) mod M)
    by (subst r M; apply N2Z.inj_mod).
  assert (Hinv : ((Nat.modulus m - r) mod Nat.modulus m)%N =
                 if (r =? 0)%N then 0%N else (Nat.modulus m - r)%N).
  { destruct (N.eqb_spec r 0) as [E | E].
    - rewrite E, N.sub_0_r. apply N.Div0.mod_same.
    - apply N.mod_small. lia. }
  assert (Hev : Z.even M = N.even (Nat.modulus m)).
  { subst M. destruct (Nat.modulus m) as [| p]; [reflexivity |].
    destruct p; reflexivity. }
  assert (Hpar : M = 2 * (M / 2) + (if Z.even M then 0 else 1)).
  { pose proof (Z.div_mod M 2 ltac:(lia)) as D.
    rewrite Zmod_even in D. exact D. }
  rewrite Hinv.
  destruct Hc as [(E & H & Hs & Ha) | [(E & H & Hs & Ha) | (E & Hs & Ha)]].
  - (* positive branch *)
    rewrite (to_Z_positive out Hs), Ha, Hs.
    destruct (N.eqb_spec r 0); [contradiction |].
    split; [left; reflexivity |].
    split; [rewrite HR; apply Z.mod_mod; lia |].
    split; [destruct (Z.even M); lia |].
    split; [lia |].
    intros Heven Hmid. exfalso.
    rewrite Heven in Hev. rewrite Hev in Hpar. lia.
  - (* negative branch *)
    rewrite (to_Z_negative out Hs), Ha, Hs.
    destruct (N.eqb_spec r 0); [contradiction |].
    split; [right; reflexivity |].
    split.
    { rewrite N2Z.inj_sub by lia. fold M.
      replace (- (M - Z.of_N r)) with (Z.of_N r + (-1) * M) by ring.
      rewrite Z.mod_add by lia. rewrite HR. apply Z.mod_mod. lia. }
    split; [destruct (Z.even M); lia |].
    split; [lia |].
    intros Heven Hmid. rewrite Heven in Hev. rewrite Hev in Hpar.
    split; [reflexivity |]. split; lia.
  - (* zero residue *)
    rewrite (to_Z_negative out Hs), Ha, Hs.
    destruct (N.eqb_spec r 0); [| contradiction].
    split; [right; reflexivity |].
    split.
    { change (- Z.of_N 0) with 0. rewrite <- HR, E. reflexivity. }
    split; [destruct (Z.even M); lia |].
    split; [lia |].
    intros Heven Hmid. rewrite Heven in Hev. rewrite Hev in Hpar. lia.
Qed.

(** An instance: [x = 12], [m = 8]. *)
Lemma SetModSymmetric_centered_witness :
  Nat.valid (mod_of 8) /\
  Int.to_Z (Int.SetModSymmetric Int.zero (nat_of 12) (mod_of 8)) mod 8
  = 12 mod 8.
Proof.
  assert (Hm : Nat.valid (mod_of 8)) by reflexivity.
  split; [exact Hm |].
  exact (proj1 (proj2 (proj1 SetModSymmetric_centered
                         Int.zero (nat_of 12) (mod_of 8) Hm))).
Defined.

(** ** Eq *)

(** [Eq] as a boolean formula, for well-formed sign bits. *)
Lemma Eq_bool (z x : Int.t) :
  is_choice (Int.sign z) -> is_choice (Int.sign x) ->
  Int.Eq z x =
  Z.b2z (((Nat.value (Int.abs z) =? 0)%N || (Int.sign z =? Int.sign x))
         && (Nat.value (Int.abs z) =? Nat.value (Int.abs x))%N).
Proof.
  unfold Int.Eq, Nat.EqZero, Nat.Eq, choice_of_bool.
  intros [-> | ->] [-> | ->];
    destruct (Nat.value (Int.abs z) =? 0)%N;
    destruct (Nat.value (Int.abs z) =? Nat.value (Int.abs x))%N;
    reflexivity.
Qed.

(** C3: for sign bits in {0,1}, [Eq] returns the true mask exactly when the
    two Ints denote the same integer [(-1)^sign * abs]; an Int of sign 0 and
    one of sign 1 over the same zero magnitude are equal under [Eq]. *)
Theorem Eq_same_value :
  (forall z x : Int.t,
      is_choice (Int.sign z) -> is_choice (Int.sign x) ->
      (Int.Eq z x = 1 <-> Int.to_Z z = Int.to_Z x) /\
      (Int.Eq z x = 0 <-> Int.to_Z z <> Int.to_Z x)) /\
  (forall a : Nat.t,
      Nat.value a = 0%N ->
      Int.Eq (Int.mk 0 a) (Int.mk 1 a) = 1 /\
      Int.Eq (Int.mk 1 a) (Int.mk 0 a) = 1).
Proof.
  split.
  - intros z x Hz Hx. rewrite (Eq_bool z x Hz Hx).
    destruct Hz as [Hz | Hz], Hx as [Hx | Hx];
      rewrite ?(to_Z_positive z Hz), ?(to_Z_negative z Hz),
              ?(to_Z_positive x Hx), ?(to_Z_negative x Hx), Hz, Hx;
      destruct (N.eqb_spec (Nat.value (Int.abs z)) 0) as [E | E];
      destruct (N.eqb_spec (Nat.value (Int.abs z)) (Nat.value (Int.abs x)))
        as [F | F];
      cbn [Z.eqb orb andb Z.b2z]; repeat split; intros; try discriminate;
      lia.
  - intros a Ha. unfold Int.Eq, Nat.EqZero, Nat.Eq, choice_of_bool.
    cbn [Int.sign Int.abs]. rewrite N.eqb_refl, Ha. split; reflexivity.
Qed.

(** An instance: [-5] against [-5] with another announced size. *)
Lemma Eq_same_value_witness :
  is_choice 1 /\
  (Int.Eq (Int.mk 1 (Nat.mk 5 8)) (Int.mk 1 (Nat.mk 5 64)) = 1 <->
   Int.to_Z (Int.mk 1 (Nat.mk 5 8)) = Int.to_Z (Int.mk 1 (Nat.mk 5 64))).
Proof.
  assert (Hs : is_choice 1) by (right; reflexivity).
  split; [exact Hs |].
  exact (proj1 (proj1 Eq_same_value
                  (Int.mk 1 (Nat.mk 5 8)) (Int.mk 1 (Nat.mk 5 64)) Hs Hs)).
Defined.

(** Swapping receiver and argument of [Eq]; no assumption on the signs. *)
Lemma Eq_swap (z x : Int.t) : Int.Eq z x = Int.Eq x z.
Proof.
  unfold Int.Eq, Nat.EqZero, Nat.Eq, choice_of_bool.
  rewrite (N.eqb_sym (Nat.value (Int.abs x)) (Nat.value (Int.abs z))).
  destruct (N.eqb_spec (Nat.value (Int.abs z)) (Nat.value (Int.abs x)))
    as [E | E].
  - rewrite E. f_equal. f_equal.
    rewrite !Z.lxor_assoc. f_equal. apply Z.lxor_comm.
  - cbn [Z.b2z]. rewrite !Z.land_0_r. reflexivity.
Qed.

(** C10: [Eq] is symmetric, although only the receiver's magnitude is
    tested for zero. *)
Theorem Eq_symmetric (z x : Int.t) : Int.Eq z x = Int.Eq x z.
Proof. exact (Eq_swap z x). Qed.

(** ** Neg *)

Lemma lxor_1_involutive (s : Z) : Z.lxor 1 (Z.lxor 1 s) = s.
Proof. rewrite <- Z.lxor_assoc, Z.lxor_nilpotent. apply Z.lxor_0_l. Qed.

(** C6: negating twice gives an Int equal to the original under [Eq]; one
    [Neg] stores [1 XOR x.sign] whatever the magnitude, zero included, and
    copies the magnitude of [x] with its announced size. *)
Theorem Neg_involution (z z' x : Int.t) :
  Int.Eq (Int.Neg z' (Int.Neg z x)) x = 1 /\
  Int.Eq x (Int.Neg z' (Int.Neg z x)) = 1 /\
  Int.sign (Int.Neg z x) = Z.lxor 1 (Int.sign x) /\
  Int.abs (Int.Neg z x) = Int.abs x /\
  Nat.announced (Int.abs (Int.Neg z x)) = Nat.announced (Int.abs x) /\
  Int.Neg z (Int.mk 0 Nat.zero) = Int.mk 1 Nat.zero.
Proof.
  assert (H : Int.Eq (Int.Neg z' (Int.Neg z x)) x = 1).
  { unfold Int.Eq, Int.Neg, Nat.EqZero, Nat.Eq, Nat.SetNat, choice_of_bool.
    cbn [Int.sign Int.abs Int.set_sign Int.set_abs].
    rewrite lxor_1_involutive, Z.lxor_assoc, Z.lxor_nilpotent, N.eqb_refl.
    destruct (Nat.value (Int.abs x) =? 0)%N; reflexivity. }
  split; [exact H |].
  split; [rewrite Eq_swap; exact H |].
  repeat split.
Qed.

(** ** Range validation against the symmetric range *)

Lemma N_even_double (n : N) : N.even n = true -> n = (2 * (n / 2))%N.
Proof.
  intros H. apply N.even_spec in H. destruct H as [k Hk]. lia.
Qed.

Lemma N_odd_double (n : N) : N.odd n = true -> n = (2 * (n / 2) + 1)%N.
Proof.
  intros H. apply N.odd_spec in H. destruct H as [k Hk]. lia.
Qed.

(** C5, as stated, fails at the midpoint of an even modulus: magnitude 4
    is at least [(8+1)/2 = 4] and passes [CheckInRange] for [m = 8]. *)
Lemma CheckInRange_midpoint_accepted :
  Nat.valid (mod_of 8) /\
  ((Nat.modulus (mod_of 8) + 1) / 2 <= Nat.value (Int.abs (int_of 1 4)))%N /\
  Int.CheckInRange (int_of 1 4) (mod_of 8) = 1 /\
  Int.CheckInRange (int_of 0 4) (mod_of 8) = 1 /\
  ~ (forall (m : Nat.Modulus) (z : Int.t),
        Nat.valid m ->
        ((Nat.modulus m + 1) / 2 <= Nat.value (Int.abs z))%N ->
        Int.CheckInRange z m = 0).
Proof.
  assert (Hm : Nat.valid (mod_of 8)) by reflexivity.
  assert (Hv : ((Nat.modulus (mod_of 8) + 1) / 2
                <= Nat.value (Int.abs (int_of 1 4)))%N)
    by (vm_compute; discriminate).
  repeat split; try assumption.
  intros H. specialize (H (mod_of 8) (int_of 1 4) Hm Hv). discriminate H.
Qed.

(** C5, amended: for a valid modulus [m], an Int whose magnitude is larger
    than [m/2] ([m < 2 abs]: at least [(m+1)/2] for an odd [m], at least
    [m/2 + 1] for an even one) fails [CheckInRange], whatever its sign. *)
Theorem CheckInRange_rejects (s : Choice) (a : Nat.t) (m : Nat.Modulus) :
  Nat.valid m ->
  ((Nat.modulus m < 2 * Nat.value a)%N ->
   Int.CheckInRange (Int.mk s a) m = 0) /\
  (N.odd (Nat.modulus m) = true ->
   ((Nat.modulus m + 1) / 2 <= Nat.value a)%N ->
   Int.CheckInRange (Int.mk s a) m = 0) /\
  (N.even (Nat.modulus m) = true ->
   (Nat.modulus m / 2 + 1 <= Nat.value a)%N ->
   Int.CheckInRange (Int.mk s a) m = 0).
Proof.
  intros Hm.
  assert (H : (Nat.modulus m < 2 * Nat.value a)%N ->
              Int.CheckInRange (Int.mk s a) m = 0).
  { intros Hlt. rewrite CheckInRange_value by exact Hm.
    cbn [Int.abs]. unfold choice_of_bool.
    destruct (N.leb_spec (2 * Nat.value a) (Nat.modulus m)); [lia |].
    reflexivity. }
  split; [exact H |]. split.
  - intros Hodd Hge. apply H. apply N_odd_double in Hodd. lia.
  - intros Heven Hge. apply H. apply N_even_double in Heven. lia.
Qed.

(** An instance: magnitude 5, [m = 8], sign 1. *)
Lemma CheckInRange_rejects_witness :
  Nat.valid (mod_of 8) /\
  (Nat.modulus (mod_of 8) < 2 * Nat.value (nat_of 5))%N /\
  Int.CheckInRange (Int.mk 1 (nat_of 5)) (mod_of 8) = 0.
Proof.
  assert (Hm : Nat.valid (mod_of 8)) by reflexivity.
  assert (Hv : (Nat.modulus (mod_of 8) < 2 * Nat.value (nat_of 5))%N)
    by reflexivity.
  split; [exact Hm |]. split; [exact Hv |].
  exact (proj1 (CheckInRange_rejects 1 (nat_of 5) (mod_of 8) Hm) Hv).
Defined.

(** C9: [CheckInRange] looks at the magnitude only, so it answers the same
    on [z] and on [Neg z]; for an even modulus [m] the Int of sign 0 and
    magnitude [m/2] passes, although [SetModSymmetric] never produces an Int
    of sign 0 with that magnitude. *)
Theorem CheckInRange_ignores_sign :
  (forall (z' z : Int.t) (m : Nat.Modulus),
      Int.CheckInRange (Int.Neg z' z) m = Int.CheckInRange z m) /\
  (forall (s s' : Choice) (a : Nat.t) (m : Nat.Modulus),
      Int.CheckInRange (Int.mk s a) m = Int.CheckInRange (Int.mk s' a) m) /\
  (forall (m : Nat.Modulus) (a : Nat.t),
      Nat.valid m -> N.even (Nat.modulus m) = true ->
      Nat.value a = (Nat.modulus m / 2)%N ->
      Int.CheckInRange (Int.mk 0 a) m = 1 /\
      forall (z : Int.t) (x : Nat.t),
        ~ (Int.sign (Int.SetModSymmetric z x m) = 0 /\
           Nat.value (Int.abs (Int.SetModSymmetric z x m)) = Nat.value a)).
Proof.
  split; [reflexivity |]. split; [reflexivity |].
  intros m a Hm Heven Ha. apply N_even_double in Heven. split.
  - rewrite CheckInRange_value by exact Hm. cbn [Int.abs].
    rewrite Ha, <- Heven, N.leb_refl. reflexivity.
  - intros z x [Hs Hv].
    destruct (SetModSymmetric_cases z x m Hm)
      as [(_ & H & _ & Hr) | [(_ & _ & H & _) | (_ & H & _)]].
    + rewrite Hr in Hv. lia.
    + rewrite Hs in H. discriminate H.
    + rewrite Hs in H. discriminate H.
Qed.

(** An instance: for [m = 8], [+4] passes and is never produced. *)
Lemma CheckInRange_ignores_sign_witness :
  Nat.valid (mod_of 8) /\ N.even (Nat.modulus (mod_of 8)) = true /\
  Int.CheckInRange (Int.mk 0 (nat_of 4)) (mod_of 8) = 1 /\
  ~ (Int.sign (Int.SetModSymmetric Int.zero (nat_of 4) (mod_of 8)) = 0 /\
     Nat.value (Int.abs (Int.SetModSymmetric Int.zero (nat_of 4) (mod_of 8)))
     = Nat.value (nat_of 4)).
Proof.
  assert (Hm : Nat.valid (mod_of 8)) by reflexivity.
  assert (He : N.even (Nat.modulus (mod_of 8)) = true) by reflexivity.
  assert (Ha : Nat.value (nat_of 4) = (Nat.modulus (mod_of 8) / 2)%N)
    by reflexivity.
  split; [exact Hm |]. split; [exact He |].
  pose proof (proj2 (proj2 CheckInRange_ignores_sign)
                (mod_of 8) (nat_of 4) Hm He Ha) as [H1 H2].
  split; [exact H1 | exact (H2 Int.zero (nat_of 4))].
Defined.

(** ** Mul *)

(** C7: [Mul] stores the sign [x.sign XOR y.sign] and the product of the
    magnitudes truncated to [cap] announced bits; a negative [cap] stands
    for the sum of the announced sizes of [x] and [y], which is then the
    announced size of the result, and the magnitude is the exact product
    whenever the product needs no more bits than that sum. *)
Theorem Mul_sign_magnitude (z x y : Int.t) (cap : Z) :
  let out := Int.Mul z x y cap in
  let p := (Nat.value (Int.abs x) * Nat.value (Int.abs y))%N in
  let total := Nat.announced (Int.abs x) + Nat.announced (Int.abs y) in
  Int.sign out = Z.lxor (Int.sign x) (Int.sign y) /\
  (0 <= cap ->
   Nat.value (Int.abs out) = (p mod 2 ^ Z.to_N cap)%N /\
   Nat.announced (Int.abs out) = cap) /\
  (cap < 0 ->
   Nat.announced (Int.abs out) = total /\
   Nat.value (Int.abs out) = (p mod 2 ^ Z.to_N total)%N /\
   (Z.of_N (N.size p) <= total -> Nat.value (Int.abs out) = p)).
Proof.
  intros out p total. subst out.
  unfold Int.Mul, Nat.Mul, Nat.truncate.
  cbn [Int.sign Int.abs Int.set_sign Int.set_abs Nat.value Nat.announced].
  fold p total.
  split; [reflexivity |]. split; intros Hcap.
  - destruct (Z.ltb_spec cap 0); [lia |]. split; reflexivity.
  - destruct (Z.ltb_spec cap 0); [| lia].
    split; [reflexivity |]. split; [reflexivity |].
    intros Hfit. apply N.mod_small.
    apply N.lt_le_trans with (m := (2 ^ N.size p)%N).
    + apply N.size_gt.
    + apply N.pow_le_mono_r; [discriminate | lia].
Qed.

(** An instance: [(-6) * (-7)] with the default capacity. *)
Lemma Mul_sign_magnitude_witness :
  -1 < 0 /\
  Int.Mul Int.zero (int_of 1 6) (int_of 1 7) (-1) = Int.mk 0 (Nat.mk 42 128) /\
  Nat.announced (Int.abs (Int.Mul Int.zero (int_of 1 6) (int_of 1 7) (-1)))
  = 64 + 64.
Proof.
  assert (Hc : -1 < 0) by reflexivity.
  split; [exact Hc |]. split; [reflexivity |].
  exact (proj1 (proj2 (proj2 (Mul_sign_magnitude
                                Int.zero (int_of 1 6) (int_of 1 7) (-1)))
                  Hc)).
Defined.

(** The sign rule on well-formed signs: positive exactly when they agree. *)
Lemma Mul_sign_rule (z x y : Int.t) (cap : Z) :
  is_choice (Int.sign x) -> is_choice (Int.sign y) ->
  Int.sign (Int.Mul z x y cap) =
  (if Int.sign x =? Int.sign y then 0 else 1).
Proof.
  unfold Int.Mul. cbn [Int.sign Int.set_sign Int.set_abs].
  intros [-> | ->] [-> | ->]; reflexivity.
Qed.

(** ** Construction *)

(** C8: [SetBytes] and [SetUint64] store the sign 0, so the Int they build
    is nonnegative whatever the input. *)
Theorem Set_nonnegative (z : Int.t) (data : list byte) (x : N) :
  Int.sign (Int.SetBytes z data) = 0 /\
  0 <= Int.to_Z (Int.SetBytes z data) /\
  Int.sign (Int.SetUint64 z x) = 0 /\
  0 <= Int.to_Z (Int.SetUint64 z x).
Proof.
  assert (Hb : Int.sign (Int.SetBytes z data) = 0) by reflexivity.
  assert (Hu : Int.sign (Int.SetUint64 z x) = 0) by reflexivity.
  rewrite (to_Z_positive _ Hb), (to_Z_positive _ Hu).
  repeat split; apply N2Z.is_nonneg.
Qed.

(** * Further properties of the Int layer *)

(** ** Well-formed signs are kept *)

Lemma is_choice_b2z (b : bool) : is_choice (Z.b2z b).
Proof. destruct b; [right | left]; reflexivity. Qed.

Lemma is_choice_lxor (a b : Choice) :
  is_choice a -> is_choice b -> is_choice (Z.lxor a b).
Proof. intros [-> | ->] [-> | ->]; cbv; auto. Qed.



(** X2: the masks returned by [Eq] and [CheckInRange] are 0 or 1; for [Eq] the
    two signs must be, for [CheckInRange] nothing is asked, not even of the
    modulus. *)
Theorem masks_are_choices (z x : Int.t) (m : Nat.Modulus) :
  (is_choice (Int.sign z) -> is_choice (Int.sign x) ->
   is_choice (Int.Eq z x)) /\
  is_choice (Int.CheckInRange z m).
Proof.
  split.
  - intros Hz Hx. rewrite (Eq_bool z x Hz Hx). apply is_choice_b2z.
  - unfold Int.CheckInRange, Nat.CmpMod, Nat.Cmp, choice_of_bool.
    destruct (Nat.value (Int.abs z) <? Nat.modulus m)%N;
      destruct (Nat.value (Nat.ModNeg Nat.zero (Int.abs z) m)
                <? Nat.value (Int.abs z))%N; cbv; auto.
Qed.

(** An instance: [+2] against [-3]. *)
Lemma masks_are_choices_witness :
  is_choice 0 /\ is_choice 1 /\ is_choice (Int.Eq (int_of 0 2) (int_of 1 3)).
Proof.
  assert (H1 : is_choice 1) by (right; reflexivity).
  assert (H0 : is_choice 0) by (left; reflexivity).
  split; [exact H0 |]. split; [exact H1 |].
  exact (proj1 (masks_are_choices (int_of 0 2) (int_of 1 3) (mod_of 7))
           H0 H1).
Defined.

(** ** Neg and Abs on values *)

(** X3: [Neg] negates the denoted integer. *)
Theorem Neg_to_Z (z x : Int.t) :
  is_choice (Int.sign x) -> Int.to_Z (Int.Neg z x) = - Int.to_Z x.
Proof.
  intros [H | H].
  - rewrite (to_Z_positive x H), to_Z_negative; [reflexivity |].
    unfold Int.Neg; cbn [Int.sign Int.set_sign Int.set_abs]. rewrite H.
    reflexivity.
  - rewrite (to_Z_negative x H), to_Z_positive.
    + rewrite Z.opp_involutive. reflexivity.
    + unfold Int.Neg; cbn [Int.sign Int.set_sign Int.set_abs]. rewrite H.
      reflexivity.
Qed.

(** An instance: negating [-3]. *)
Lemma Neg_to_Z_witness :
  is_choice 1 /\ Int.to_Z (Int.Neg Int.zero (int_of 1 3)) = - (-3).
Proof.
  assert (H1 : is_choice 1) by (right; reflexivity).
  split; [exact H1 |]. exact (Neg_to_Z Int.zero (int_of 1 3) H1).
Defined.

(** X4: [Abs] is the absolute value of the denoted integer, and [Neg] does not
    change it. *)
Theorem Abs_to_Z (z x : Int.t) :
  is_choice (Int.sign x) ->
  Z.of_N (Nat.value (Int.Abs x)) = Z.abs (Int.to_Z x) /\
  Int.Abs (Int.Neg z x) = Int.Abs x.
Proof.
  intros Hs. split; [| reflexivity].
  unfold Int.Abs, Nat.SetNat. destruct Hs as [H | H].
  - rewrite (to_Z_positive x H). symmetry. apply Z.abs_eq, N2Z.is_nonneg.
  - rewrite (to_Z_negative x H), Z.abs_opp. symmetry.
    apply Z.abs_eq, N2Z.is_nonneg.
Qed.

(** An instance: the absolute value of [-3]. *)
Lemma Abs_to_Z_witness :
  is_choice 1 /\ Z.of_N (Nat.value (Int.Abs (int_of 1 3))) = Z.abs (-3).
Proof.
  assert (H1 : is_choice 1) by (right; reflexivity).
  split; [exact H1 |]. exact (proj1 (Abs_to_Z Int.zero (int_of 1 3) H1)).
Defined.

(** ** Eq as an equivalence *)

(** X5: [Eq] is reflexive for every sign word, and transitive on Ints whose
    signs are 0 or 1. *)
Theorem Eq_equivalence :
  (forall z : Int.t, Int.Eq z z = 1) /\
  (forall x y z : Int.t,
      is_choice (Int.sign x) -> is_choice (Int.sign y) ->
      is_choice (Int.sign z) ->
      Int.Eq x y = 1 -> Int.Eq y z = 1 -> Int.Eq x z = 1).
Proof.
  split.
  - intros z. unfold Int.Eq, Nat.EqZero, Nat.Eq, choice_of_bool.
    rewrite Z.lxor_assoc, Z.lxor_nilpotent, N.eqb_refl.
    destruct (Nat.value (Int.abs z) =? 0)%N; reflexivity.
  - intros x y z Hx Hy Hz.
    rewrite (Eq_bool x y Hx Hy), (Eq_bool y z Hy Hz), (Eq_bool x z Hx Hz).
    destruct (N.eqb_spec (Nat.value (Int.abs x)) (Nat.value (Int.abs y)))
      as [E | E]; [| rewrite andb_false_r; discriminate].
    destruct (N.eqb_spec (Nat.value (Int.abs y)) (Nat.value (Int.abs z)))
      as [F | F]; [| rewrite andb_false_r; discriminate].
    rewrite <- E in F. rewrite <- E.
    destruct (N.eqb_spec (Nat.value (Int.abs x)) (Nat.value (Int.abs z)))
      as [G | G]; [| contradiction].
    destruct (N.eqb_spec (Nat.value (Int.abs x)) 0) as [Z0 | Z0];
      [intros; reflexivity |].
    destruct Hx as [-> | ->], Hy as [-> | ->], Hz as [-> | ->];
      cbn; intros; try reflexivity; discriminate.
Qed.

(** An instance: [-0], [+0] and [-0] again. *)
Lemma Eq_equivalence_witness :
  is_choice 0 /\ is_choice 1 /\
  Int.Eq (int_of 1 0) (int_of 0 0) = 1 /\
  Int.Eq (int_of 0 0) (int_of 1 0) = 1 /\
  Int.Eq (int_of 1 0) (int_of 1 0) = 1.
Proof.
  assert (H1 : is_choice 1) by (right; reflexivity).
  assert (H0 : is_choice 0) by (left; reflexivity).
  assert (A : Int.Eq (int_of 1 0) (int_of 0 0) = 1) by reflexivity.
  assert (B : Int.Eq (int_of 0 0) (int_of 1 0) = 1) by reflexivity.
  repeat (split; [assumption |]).
  exact (proj2 Eq_equivalence (int_of 1 0) (int_of 0 0) (int_of 1 0)
           H1 H0 H1 A B).
Defined.

(** ** Mod on values *)

(** The residue returned by [Mod], by sign, in terms of the residue [r] of
    the magnitude. *)
Lemma Mod_value (z : Int.t) (m : Nat.Modulus) :
  Nat.valid m ->
  let r := (Nat.value (Int.abs z) mod Nat.modulus m)%N in
  Nat.value (Int.Mod z m) =
  if Int.sign z =? 1
  then (if (r =? 0)%N then 0%N else (Nat.modulus m - r)%N)
  else r.
Proof.
  intros Hm r. unfold Int.Mod, Nat.CondAssign.
  destruct (Int.sign z =? 1); [| reflexivity].
  rewrite ModNeg_value by exact Hm.
  cbn [Nat.Mod Nat.value]. rewrite N.Div0.mod_mod. reflexivity.
Qed.

(** [Mod] is the mathematical residue of the denoted integer. *)
Lemma Mod_to_Z (z : Int.t) (m : Nat.Modulus) :
  is_choice (Int.sign z) -> Nat.valid m ->
  Z.of_N (Nat.value (Int.Mod z m)) = Int.to_Z z mod Z.of_N (Nat.modulus m).
Proof.
  intros Hs Hm. rewrite (Mod_value z m Hm). unfold Nat.valid in Hm.
  set (v := Nat.value (Int.abs z)). set (n := Nat.modulus m) in *.
  assert (Hn : Z.of_N n <> 0) by lia.
  destruct Hs as [H | H]; rewrite H; cbn [Z.eqb Pos.eqb].
  - rewrite (to_Z_positive z H). apply N2Z.inj_mod.
  - rewrite (to_Z_negative z H). fold v.
    destruct (N.eqb_spec (v mod n) 0) as [E | E].
    + symmetry. apply Z.mod_opp_l_z; [exact Hn |].
      rewrite <- N2Z.inj_mod, E. reflexivity.
    + pose proof (N.mod_upper_bound v n ltac:(lia)) as Hr.
      rewrite Z.mod_opp_l_nz; [| exact Hn |].
      * rewrite N2Z.inj_sub by lia. rewrite N2Z.inj_mod. reflexivity.
      * rewrite <- N2Z.inj_mod. lia.
Qed.

(** X6: two Ints that are [Eq] have the same residue: in particular [-0] and
    [+0] both reduce to 0. *)
Theorem Mod_respects_Eq (z x : Int.t) (m : Nat.Modulus) :
  is_choice (Int.sign z) -> is_choice (Int.sign x) -> Nat.valid m ->
  Int.Eq z x = 1 ->
  Nat.value (Int.Mod z m) = Nat.value (Int.Mod x m).
Proof.
  intros Hz Hx Hm. rewrite (Eq_bool z x Hz Hx).
  rewrite !Mod_value by exact Hm.
  destruct (N.eqb_spec (Nat.value (Int.abs z)) (Nat.value (Int.abs x)))
    as [E | E]; [| rewrite andb_false_r; discriminate].
  rewrite <- E.
  destruct (N.eqb_spec (Nat.value (Int.abs z)) 0) as [Z0 | Z0].
  - intros _. rewrite Z0, N.Div0.mod_0_l. cbn [N.eqb].
    destruct (Int.sign z =? 1), (Int.sign x =? 1); reflexivity.
  - destruct (Z.eqb_spec (Int.sign z) (Int.sign x)) as [S | S];
      [| discriminate].
    rewrite S. reflexivity.
Qed.

(** An instance: [-0] and [+0] modulo 7. *)
Lemma Mod_respects_Eq_witness :
  is_choice 1 /\ is_choice 0 /\ Nat.valid (mod_of 7) /\
  Int.Eq (int_of 1 0) (int_of 0 0) = 1 /\
  Nat.value (Int.Mod (int_of 1 0) (mod_of 7))
  = Nat.value (Int.Mod (int_of 0 0) (mod_of 7)).
Proof.
  assert (H1 : is_choice 1) by (right; reflexivity).
  assert (H0 : is_choice 0) by (left; reflexivity).
  assert (Hm : Nat.valid (mod_of 7)) by reflexivity.
  assert (He : Int.Eq (int_of 1 0) (int_of 0 0) = 1) by reflexivity.
  repeat (split; [assumption |]).
  exact (Mod_respects_Eq (int_of 1 0) (int_of 0 0) (mod_of 7) H1 H0 Hm He).
Defined.

(** X7: the residues of an Int and of its negation add up to a multiple of the
    modulus. *)
Theorem Mod_Neg_inverse (z x : Int.t) (m : Nat.Modulus) :
  is_choice (Int.sign x) -> Nat.valid m ->
  ((Nat.value (Int.Mod (Int.Neg z x) m) + Nat.value (Int.Mod x m))
   mod Nat.modulus m = 0)%N.
Proof.
  intros Hs Hm. rewrite !Mod_value by exact Hm.
  unfold Int.Neg, Nat.SetNat. cbn [Int.sign Int.abs Int.set_sign Int.set_abs].
  unfold Nat.valid in Hm.
  set (n := Nat.modulus m) in *.
  set (r := (Nat.value (Int.abs x) mod n)%N).
  assert (Hr : (r < n)%N) by (apply N.mod_upper_bound; lia).
  assert (Hn : ((n - r + r) mod n = 0)%N).
  { replace (n - r + r)%N with n by lia. apply N.Div0.mod_same. }
  destruct Hs as [H | H]; rewrite H; cbn [Z.lxor Pos.lxor Z.of_N Z.eqb Pos.eqb];
    destruct (N.eqb_spec r 0) as [E | E].
  - rewrite E. reflexivity.
  - exact Hn.
  - rewrite E. reflexivity.
  - rewrite N.add_comm. exact Hn.
Qed.

(** An instance: [3] and [-3] modulo 7. *)
Lemma Mod_Neg_inverse_witness :
  is_choice 0 /\ Nat.valid (mod_of 7) /\
  ((Nat.value (Int.Mod (Int.Neg Int.zero (int_of 0 3)) (mod_of 7))
    + Nat.value (Int.Mod (int_of 0 3) (mod_of 7))) mod 7 = 0)%N.
Proof.
  assert (H0 : is_choice 0) by (left; reflexivity).
  assert (Hm : Nat.valid (mod_of 7)) by reflexivity.
  split; [exact H0 |]. split; [exact Hm |].
  exact (Mod_Neg_inverse Int.zero (int_of 0 3) (mod_of 7) H0 Hm).
Defined.

(** ** Round trips between Mod and SetModSymmetric *)

Lemma Mod_SetModSymmetric_value (z : Int.t) (x : Nat.t) (m : Nat.Modulus) :
  Nat.valid m ->
  Nat.value (Int.Mod (Int.SetModSymmetric z x m) m)
  = (Nat.value x mod Nat.modulus m)%N.
Proof.
  intros Hm. rewrite Mod_value by exact Hm.
  pose proof (N.mod_upper_bound (Nat.value x) (Nat.modulus m)) as Hr.
  unfold Nat.valid in Hm.
  destruct (SetModSymmetric_cases z x m Hm)
    as [(E & H & -> & ->) | [(E & H & -> & ->) | (E & -> & ->)]];
    cbn [Z.eqb Pos.eqb].
  - apply N.mod_small. lia.
  - rewrite (N.mod_small (Nat.modulus m - _) (Nat.modulus m)) by lia.
    destruct (N.eqb_spec (Nat.modulus m - Nat.value x mod Nat.modulus m) 0);
      lia.
  - rewrite N.Div0.mod_0_l. cbn [N.eqb]. symmetry. exact E.
Qed.

(** X8: reducing the symmetric representative of [x] gives back the residue of
    [x], whatever the receiver held before. *)
Theorem Mod_SetModSymmetric (z : Int.t) (x : Nat.t) (m : Nat.Modulus) :
  Nat.valid m ->
  Nat.value (Int.Mod (Int.SetModSymmetric z x m) m)
  = (Nat.value x mod Nat.modulus m)%N.
Proof. exact (Mod_SetModSymmetric_value z x m). Qed.

(** An instance: [x = 12], [m = 8]. *)
Lemma Mod_SetModSymmetric_witness :
  Nat.valid (mod_of 8) /\
  Nat.value (Int.Mod (Int.SetModSymmetric Int.zero (nat_of 12) (mod_of 8))
               (mod_of 8)) = (12 mod 8)%N.
Proof.
  assert (Hm : Nat.valid (mod_of 8)) by reflexivity.
  split; [exact Hm |].
  exact (Mod_SetModSymmetric Int.zero (nat_of 12) (mod_of 8) Hm).
Defined.



(** X10: a multiple of the modulus, zero included, becomes negative zero: sign 1
    with magnitude 0, which is still [Eq] to the zero Int. *)
Theorem SetModSymmetric_negative_zero (z : Int.t) (x : Nat.t)
        (m : Nat.Modulus) :
  Nat.valid m -> (Nat.value x mod Nat.modulus m = 0)%N ->
  Int.sign (Int.SetModSymmetric z x m) = 1 /\
  Nat.value (Int.abs (Int.SetModSymmetric z x m)) = 0%N /\
  Int.Eq (Int.SetModSymmetric z x m) Int.zero = 1 /\
  Int.Eq Int.zero (Int.SetModSymmetric z x m) = 1.
Proof.
  intros Hm Hx.
  destruct (SetModSymmetric_cases z x m Hm)
    as [(E & _) | [(E & _) | (_ & Hs & Ha)]]; try contradiction.
  split; [exact Hs |]. split; [exact Ha |].
  assert (He : Int.Eq (Int.SetModSymmetric z x m) Int.zero = 1).
  { unfold Int.Eq, Nat.EqZero, Nat.Eq, choice_of_bool.
    rewrite Hs, Ha. reflexivity. }
  split; [exact He |]. rewrite Eq_swap. exact He.
Qed.

(** An instance: 14 modulo 7. *)
Lemma SetModSymmetric_negative_zero_witness :
  Nat.valid (mod_of 7) /\ (14 mod 7 = 0)%N /\
  Int.sign (Int.SetModSymmetric Int.zero (nat_of 14) (mod_of 7)) = 1.
Proof.
  assert (Hm : Nat.valid (mod_of 7)) by reflexivity.
  assert (Hx : (Nat.value (nat_of 14) mod Nat.modulus (mod_of 7) = 0)%N)
    by reflexivity.
  split; [exact Hm |]. split; [exact Hx |].
  exact (proj1 (SetModSymmetric_negative_zero Int.zero (nat_of 14)
                  (mod_of 7) Hm Hx)).
Defined.

(** X11: the image of [SetModSymmetric]: sign 0 with a magnitude [a] such that
    [0 < a] and [2 a < m], or sign 1 with [2 a <= m].  Positive zero and,
    for an even [m], the positive midpoint are never produced. *)
Theorem SetModSymmetric_image (s : Choice) (a : N) (m : Nat.Modulus) :
  Nat.valid m ->
  ((exists (z : Int.t) (x : Nat.t),
       Int.sign (Int.SetModSymmetric z x m) = s /\
       Nat.value (Int.abs (Int.SetModSymmetric z x m)) = a) <->
   (s = 0 /\ (0 < a)%N /\ (2 * a < Nat.modulus m)%N) \/
   (s = 1 /\ (2 * a <= Nat.modulus m)%N)).
Proof.
  intros Hm. pose proof Hm as Hpos. unfold Nat.valid in Hpos. split.
  - intros (z & x & Hs & Ha).
    pose proof (N.mod_upper_bound (Nat.value x) (Nat.modulus m)) as Hr.
    destruct (SetModSymmetric_cases z x m Hm)
      as [(E & H & Hs' & Ha') | [(E & H & Hs' & Ha') | (E & Hs' & Ha')]];
      rewrite Hs' in Hs; rewrite Ha' in Ha; subst s.
    + left. repeat split; lia.
    + right. split; [reflexivity | lia].
    + right. split; [reflexivity | lia].
  - intros [(-> & Ha & Hlt) | (-> & Hle)].
    + exists Int.zero, (Nat.mk a 0).
      destruct (SetModSymmetric_cases Int.zero (Nat.mk a 0) m Hm)
        as [(E & H & Hs' & Ha') | [(E & H & Hs' & Ha') | (E & Hs' & Ha')]];
        cbn [Nat.value] in *;
        rewrite (N.mod_small a (Nat.modulus m)) in * by lia.
      * split; assumption.
      * lia.
      * lia.
    + set (n := Nat.modulus m) in *.
      set (x0 := Nat.mk ((n - a) mod n) 0).
      assert (Hx0 : (Nat.value x0 mod n)%N
                    = if (a =? 0)%N then 0%N else (n - a)%N).
      { unfold x0. cbn [Nat.value]. rewrite N.Div0.mod_mod.
        destruct (N.eqb_spec a 0) as [A0 | A0].
        - rewrite A0, N.sub_0_r. apply N.Div0.mod_same.
        - apply N.mod_small. lia. }
      clearbody x0. exists Int.zero, x0.
      destruct (SetModSymmetric_cases Int.zero x0 m Hm)
        as [(E & H & Hs' & Ha') | [(E & H & Hs' & Ha') | (E & Hs' & Ha')]];
        fold n in E, Ha'; try fold n in H; rewrite Hx0 in *;
        destruct (N.eqb_spec a 0) as [A0 | A0];
        (split; [try exact Hs' |]); lia.
Qed.

(** An instance: [-4] is in the image for [m = 8]. *)
Lemma SetModSymmetric_image_witness :
  Nat.valid (mod_of 8) /\
  exists (z : Int.t) (x : Nat.t),
    Int.sign (Int.SetModSymmetric z x (mod_of 8)) = 1 /\
    Nat.value (Int.abs (Int.SetModSymmetric z x (mod_of 8))) = 4%N.
Proof.
  assert (Hm : Nat.valid (mod_of 8)) by reflexivity.
  split; [exact Hm |].
  apply (proj2 (SetModSymmetric_image 1 4 (mod_of 8) Hm)).
  right. split; [reflexivity | discriminate].
Defined.

(** ** The exact acceptance set of CheckInRange *)

(** X12: for a valid modulus, [CheckInRange] answers true exactly on the
    magnitudes [a] with [2 a <= m] and false on all others; the sign is not
    consulted. *)
Theorem CheckInRange_accepts (z : Int.t) (m : Nat.Modulus) :
  Nat.valid m ->
  (Int.CheckInRange z m = 1 <->
   (2 * Nat.value (Int.abs z) <= Nat.modulus m)%N) /\
  (Int.CheckInRange z m = 0 <->
   (Nat.modulus m < 2 * Nat.value (Int.abs z))%N).
Proof.
  intros Hm. rewrite (CheckInRange_value z m Hm). unfold choice_of_bool.
  destruct (N.leb_spec (2 * Nat.value (Int.abs z)) (Nat.modulus m));
    cbn [Z.b2z]; repeat split; intros; try discriminate; try reflexivity; lia.
Qed.

(** An instance: magnitude 3 against [m = 7]. *)
Lemma CheckInRange_accepts_witness :
  Nat.valid (mod_of 7) /\
  (Int.CheckInRange (int_of 0 3) (mod_of 7) = 1 <-> (2 * 3 <= 7)%N).
Proof.
  assert (Hm : Nat.valid (mod_of 7)) by reflexivity.
  split; [exact Hm |].
  exact (proj1 (CheckInRange_accepts (int_of 0 3) (mod_of 7) Hm)).
Defined.

(** X13: an Int that passes [CheckInRange] is recovered from its residue: the
    symmetric representative of [Mod z m] has the magnitude of [z], and is
    [Eq] to [z] unless [z] is the positive midpoint of an even modulus. *)
Theorem SetModSymmetric_Mod (z' z : Int.t) (m : Nat.Modulus) :
  Nat.valid m -> is_choice (Int.sign z) ->
  Int.CheckInRange z m = 1 ->
  let out := Int.SetModSymmetric z' (Int.Mod z m) m in
  Nat.value (Int.abs out) = Nat.value (Int.abs z) /\
  (~ (Int.sign z = 0 /\ (2 * Nat.value (Int.abs z) = Nat.modulus m)%N) ->
   Int.Eq out z = 1).
Proof.
  intros Hm Hs Hc out. subst out.
  rewrite (CheckInRange_value z m Hm) in Hc. unfold choice_of_bool in Hc.
  destruct (N.leb_spec (2 * Nat.value (Int.abs z)) (Nat.modulus m))
    as [Hle | Hle]; [clear Hc | discriminate Hc].
  pose proof (Mod_value z m Hm) as Hw. cbv zeta in Hw.
  pose proof Hm as Hpos. unfold Nat.valid in Hpos.
  set (n := Nat.modulus m) in *. set (v := Nat.value (Int.abs z)) in *.
  rewrite (N.mod_small v n) in Hw by lia.
  set (x0 := Int.Mod z m) in *.
  assert (Hlt : (Nat.value x0 < n)%N).
  { rewrite Hw. destruct (Int.sign z =? 1); [| lia].
    destruct (N.eqb_spec v 0); lia. }
  pose proof (SetModSymmetric_cases z' x0 m Hm) as Hc. cbv zeta in Hc.
  fold n in Hc. rewrite (N.mod_small _ _ Hlt) in Hc.
  set (out := Int.SetModSymmetric z' x0 m) in *.
  assert (Hm0 : Nat.value (Int.abs out) = v).
  { destruct Hs as [H | H]; rewrite H in Hw; cbn [Z.eqb Pos.eqb] in Hw;
      try (destruct (N.eqb_spec v 0));
      destruct Hc as [(E & L & Hs' & Ha') | [(E & L & Hs' & Ha') | (E & Hs' & Ha')]];
      lia. }
  split; [exact Hm0 |]. intros Hmid.
  assert (Ho : is_choice (Int.sign out)).
  { destruct Hc as [(_ & _ & -> & _) | [(_ & _ & -> & _) | (_ & -> & _)]];
      [left | right | right]; reflexivity. }
  rewrite (Eq_bool out z Ho Hs). fold v. rewrite Hm0, N.eqb_refl, andb_true_r.
  destruct (N.eqb_spec v 0) as [V0 | V0]; [reflexivity |].
  cbn [orb].
  destruct (Z.eqb_spec (Int.sign out) (Int.sign z)) as [S | S];
    [reflexivity | exfalso].
  destruct Hs as [H | H]; rewrite H in Hw, S; cbn [Z.eqb Pos.eqb] in Hw;
    try (destruct (N.eqb_spec v 0); [contradiction |]);
    destruct Hc as [(E & L & Hs' & Ha') | [(E & L & Hs' & Ha') | (E & Hs' & Ha')]];
    try (apply S; exact Hs'); try (apply Hmid; split; [exact H |]); lia.
Qed.

(** An instance: [-3] against [m = 7]. *)
Lemma SetModSymmetric_Mod_witness :
  Nat.valid (mod_of 7) /\ is_choice 1 /\
  Int.CheckInRange (int_of 1 3) (mod_of 7) = 1 /\
  Nat.value (Int.abs (Int.SetModSymmetric Int.zero
                        (Int.Mod (int_of 1 3) (mod_of 7)) (mod_of 7))) = 3%N.
Proof.
  assert (Hm : Nat.valid (mod_of 7)) by reflexivity.
  assert (H1 : is_choice 1) by (right; reflexivity).
  assert (Hc : Int.CheckInRange (int_of 1 3) (mod_of 7) = 1) by reflexivity.
  repeat (split; [assumption |]).
  exact (proj1 (SetModSymmetric_Mod Int.zero (int_of 1 3) (mod_of 7)
                  Hm H1 Hc)).
Defined.

(** ** Mul on values *)

Lemma lxor_sign_product (a b : Choice) :
  is_choice a -> is_choice b ->
  (-1) ^ Z.lxor a b = (-1) ^ a * (-1) ^ b.
Proof. intros [-> | ->] [-> | ->]; reflexivity. Qed.

(** When nothing is truncated, the product denotes the product. *)
Lemma Mul_to_Z_exact (z x y : Int.t) (cap : Z) :
  is_choice (Int.sign x) -> is_choice (Int.sign y) ->
  Nat.value (Int.abs (Int.Mul z x y cap))
  = (Nat.value (Int.abs x) * Nat.value (Int.abs y))%N ->
  Int.to_Z (Int.Mul z x y cap) = Int.to_Z x * Int.to_Z y.
Proof.
  intros Hx Hy Hv. unfold Int.to_Z at 1. rewrite Hv.
  unfold Int.Mul. cbn [Int.sign Int.set_sign Int.set_abs].
  rewrite (lxor_sign_product _ _ Hx Hy), N2Z.inj_mul.
  unfold Int.to_Z. ring.
Qed.

(** X14: the XOR of the signs is the sign of the product: when the magnitudes
    fit their announced sizes, [Mul] with a negative [cap] denotes the
    product of the two integers, and so does [Mul] with a [cap] that the
    product of the magnitudes fits. *)
Theorem Mul_to_Z (z x y : Int.t) (cap : Z) :
  is_choice (Int.sign x) -> is_choice (Int.sign y) ->
  (cap < 0 ->
   0 <= Nat.announced (Int.abs x) -> 0 <= Nat.announced (Int.abs y) ->
   (Nat.value (Int.abs x) < 2 ^ Z.to_N (Nat.announced (Int.abs x)))%N ->
   (Nat.value (Int.abs y) < 2 ^ Z.to_N (Nat.announced (Int.abs y)))%N ->
   Int.to_Z (Int.Mul z x y cap) = Int.to_Z x * Int.to_Z y) /\
  (0 <= cap ->
   (Nat.value (Int.abs x) * Nat.value (Int.abs y) < 2 ^ Z.to_N cap)%N ->
   Int.to_Z (Int.Mul z x y cap) = Int.to_Z x * Int.to_Z y).
Proof.
  intros Hx Hy. split.
  - intros Hcap Hax Hay Hvx Hvy. apply Mul_to_Z_exact; try assumption.
    unfold Int.Mul, Nat.Mul, Nat.truncate.
    cbn [Int.abs Int.set_sign Int.set_abs Nat.value].
    destruct (Z.ltb_spec cap 0); [| lia].
    apply N.mod_small. rewrite Z2N.inj_add, N.pow_add_r by assumption.
    apply N.mul_lt_mono; assumption.
  - intros Hcap Hfit. apply Mul_to_Z_exact; try assumption.
    unfold Int.Mul, Nat.Mul, Nat.truncate.
    cbn [Int.abs Int.set_sign Int.set_abs Nat.value].
    destruct (Z.ltb_spec cap 0); [lia |].
    apply N.mod_small. exact Hfit.
Qed.

(** An instance: [(-6) * 7] with the default capacity. *)
Lemma Mul_to_Z_witness :
  is_choice 1 /\ is_choice 0 /\ -1 < 0 /\
  Int.to_Z (Int.Mul Int.zero (int_of 1 6) (int_of 0 7) (-1)) = (-6) * 7.
Proof.
  assert (H1 : is_choice 1) by (right; reflexivity).
  assert (H0 : is_choice 0) by (left; reflexivity).
  assert (Hc : -1 < 0) by reflexivity.
  repeat (split; [assumption |]).
  apply (proj1 (Mul_to_Z Int.zero (int_of 1 6) (int_of 0 7) (-1) H1 H0) Hc);
    cbn; try discriminate; reflexivity.
Defined.

(** X15: [Mul] is commutative: swapping the operands gives the same Int, sign,
    magnitude and announced size. *)
Theorem Mul_comm (z x y : Int.t) (cap : Z) :
  Int.Mul z x y cap = Int.Mul z y x cap.
Proof.
  unfold Int.Mul, Nat.Mul. cbn [Int.abs Int.sign Int.set_sign Int.set_abs].
  rewrite (Z.lxor_comm (Int.sign x)), (N.mul_comm (Nat.value (Int.abs x))),
    (Z.add_comm (Nat.announced (Int.abs x))).
  reflexivity.
Qed.

Lemma lxor_flip_both (a b : Z) : Z.lxor (Z.lxor 1 a) (Z.lxor 1 b) = Z.lxor a b.
Proof.
  rewrite (Z.lxor_comm 1 a), Z.lxor_assoc, <- (Z.lxor_assoc 1 1 b).
  rewrite Z.lxor_nilpotent, Z.lxor_0_l. reflexivity.
Qed.

(** X16: negation moves through a product: negating one factor negates the
    product, negating both leaves it unchanged.  The equalities are between
    the Ints themselves, for every sign word. *)
Theorem Mul_Neg (z a b x y : Int.t) (cap : Z) :
  Int.Mul z (Int.Neg a x) y cap = Int.Neg b (Int.Mul z x y cap) /\
  Int.Mul z x (Int.Neg a y) cap = Int.Neg b (Int.Mul z x y cap) /\
  Int.Mul z (Int.Neg a x) (Int.Neg b y) cap = Int.Mul z x y cap.
Proof.
  unfold Int.Mul, Int.Neg, Nat.SetNat, Int.set_sign, Int.set_abs.
  cbn [Int.abs Int.sign].
  repeat split; f_equal.
  - apply Z.lxor_assoc.
  - rewrite <- Z.lxor_assoc, (Z.lxor_comm (Int.sign x) 1).
    apply Z.lxor_assoc.
  - apply lxor_flip_both.
Qed.

(** X17: reduction is multiplicative: when [Mul] did not truncate, the residue
    of the product is the product of the residues, reduced. *)
Theorem Mod_Mul (z x y : Int.t) (cap : Z) (m : Nat.Modulus) :
  is_choice (Int.sign x) -> is_choice (Int.sign y) -> Nat.valid m ->
  Nat.value (Int.abs (Int.Mul z x y cap))
  = (Nat.value (Int.abs x) * Nat.value (Int.abs y))%N ->
  Nat.value (Int.Mod (Int.Mul z x y cap) m)
  = ((Nat.value (Int.Mod x m) * Nat.value (Int.Mod y m))
     mod Nat.modulus m)%N.
Proof.
  intros Hx Hy Hm Hv. apply N2Z.inj.
  rewrite N2Z.inj_mod, N2Z.inj_mul.
  rewrite (Mod_to_Z x m Hx Hm), (Mod_to_Z y m Hy Hm).
  rewrite Mod_to_Z; [| | exact Hm].
  - rewrite (Mul_to_Z_exact z x y cap Hx Hy Hv).
    apply Z.mul_mod. unfold Nat.valid in Hm. lia.
  - unfold Int.Mul. cbn [Int.sign Int.set_sign Int.set_abs].
    apply is_choice_lxor; assumption.
Qed.

(** An instance: [(-6) * 7] modulo 5. *)
Lemma Mod_Mul_witness :
  is_choice 1 /\ is_choice 0 /\ Nat.valid (mod_of 5) /\
  Nat.value (Int.Mod (Int.Mul Int.zero (int_of 1 6) (int_of 0 7) (-1))
               (mod_of 5)) = ((4 * 2) mod 5)%N.
Proof.
  assert (H1 : is_choice 1) by (right; reflexivity).
  assert (H0 : is_choice 0) by (left; reflexivity).
  assert (Hm : Nat.valid (mod_of 5)) by reflexivity.
  repeat (split; [assumption |]).
  exact (Mod_Mul Int.zero (int_of 1 6) (int_of 0 7) (-1) (mod_of 5)
           H1 H0 Hm eq_refl).
Defined.

(** ** Resize *)

(** X18: [Resize] keeps the sign and announces [cap] bits; the magnitude is
    reduced modulo [2^cap], so an Int whose magnitude fits [cap] bits keeps
    its value and stays [Eq] to itself. *)
Theorem Resize_to_Z (z : Int.t) (cap : Z) :
  is_choice (Int.sign z) -> 0 <= cap ->
  Int.sign (Int.Resize z cap) = Int.sign z /\
  Nat.announced (Int.abs (Int.Resize z cap)) = cap /\
  Z.abs (Int.to_Z (Int.Resize z cap)) = Z.abs (Int.to_Z z) mod 2 ^ cap /\
  ((Nat.value (Int.abs z) < 2 ^ Z.to_N cap)%N ->
   Int.to_Z (Int.Resize z cap) = Int.to_Z z /\
   Int.Eq (Int.Resize z cap) z = 1).
Proof.
  intros Hs Hcap.
  assert (Hsign : Int.sign (Int.Resize z cap) = Int.sign z) by reflexivity.
  assert (Hval : Z.of_N (Nat.value (Int.abs (Int.Resize z cap)))
                 = Z.of_N (Nat.value (Int.abs z)) mod 2 ^ cap).
  { unfold Int.Resize, Nat.Resize, Nat.truncate.
    cbn [Int.abs Int.set_abs Nat.value].
    rewrite N2Z.inj_mod, N2Z.inj_pow, Z2N.id by exact Hcap. reflexivity. }
  split; [exact Hsign |]. split; [reflexivity |]. split.
  - destruct Hs as [H | H].
    + rewrite (to_Z_positive z H), to_Z_positive by (rewrite Hsign; exact H).
      rewrite !Z.abs_eq by apply N2Z.is_nonneg. exact Hval.
    + rewrite (to_Z_negative z H), to_Z_negative by (rewrite Hsign; exact H).
      rewrite !Z.abs_opp, !Z.abs_eq by apply N2Z.is_nonneg. exact Hval.
  - intros Hfit.
    assert (Hsame : Nat.value (Int.abs (Int.Resize z cap))
                    = Nat.value (Int.abs z)).
    { unfold Int.Resize, Nat.Resize, Nat.truncate.
      cbn [Int.abs Int.set_abs Nat.value]. apply N.mod_small. exact Hfit. }
    split.
    + unfold Int.to_Z. rewrite Hsign, Hsame. reflexivity.
    + unfold Int.Eq, Nat.EqZero, Nat.Eq, choice_of_bool.
      rewrite Hsign, Hsame, Z.lxor_assoc, Z.lxor_nilpotent, N.eqb_refl.
      destruct (Nat.value (Int.abs z) =? 0)%N; reflexivity.
Qed.

(** An instance: [-13] resized to 3 bits has magnitude [13 mod 8]. *)
Lemma Resize_to_Z_witness :
  is_choice 1 /\ 0 <= 3 /\
  Z.abs (Int.to_Z (Int.Resize (int_of 1 13) 3)) = Z.abs (-13) mod 2 ^ 3.
Proof.
  assert (H1 : is_choice 1) by (right; reflexivity).
  assert (Hc : 0 <= 3) by discriminate.
  repeat (split; [assumption |]).
  exact (proj1 (proj2 (proj2 (Resize_to_Z (int_of 1 13) 3 H1 Hc)))).
Defined.

(** ** String *)

(** X19: [String] tells the signs apart: two Ints with signs in {0,1} that print
    the same have the same sign.  So the two zeros, which are [Eq], print
    differently, whatever the magnitude prints as. *)
Theorem String_sign (natString : Nat.t -> String.string) :
  (forall z x : Int.t,
      is_choice (Int.sign z) -> is_choice (Int.sign x) ->
      Int.String natString z = Int.String natString x ->
      Int.sign z = Int.sign x) /\
  (forall a : Nat.t,
      Nat.value a = 0%N ->
      Int.Eq (Int.mk 0 a) (Int.mk 1 a) = 1 /\
      Int.String natString (Int.mk 0 a) <> Int.String natString (Int.mk 1 a)).
Proof.
  split.
  - intros z x [Hz | Hz] [Hx | Hx]; rewrite Hz, Hx; try reflexivity;
      unfold Int.String, Int.ctIfElse, Int.rune_string; rewrite Hz, Hx;
      cbn; intros H; discriminate H.
  - intros a Ha. split.
    + unfold Int.Eq, Nat.EqZero, Nat.Eq, choice_of_bool.
      cbn [Int.sign Int.abs]. rewrite N.eqb_refl, Ha. reflexivity.
    + unfold Int.String, Int.ctIfElse, Int.rune_string. cbn.
      intros H; discriminate H.
Qed.

(** An instance: [-5] under two announced sizes, with a magnitude printer
    that ignores the announced size. *)
Lemma String_sign_witness :
  is_choice 1 /\
  Int.String (fun _ => String.EmptyString) (int_of 1 5)
  = Int.String (fun _ => String.EmptyString) (Int.mk 1 (Nat.mk 5 8)) /\
  Int.sign (int_of 1 5) = Int.sign (Int.mk 1 (Nat.mk 5 8)).
Proof.
  assert (H1 : is_choice 1) by (right; reflexivity).
  assert (He : Int.String (fun _ => String.EmptyString) (int_of 1 5)
               = Int.String (fun _ => String.EmptyString)
                   (Int.mk 1 (Nat.mk 5 8))) by reflexivity.
  repeat (split; [assumption |]).
  exact (proj1 (String_sign (fun _ => String.EmptyString))
           (int_of 1 5) (Int.mk 1 (Nat.mk 5 8)) H1 H1 He).
Defined.
